(** * The C binding header of the OpenSCAD tree-sitter grammar

    Source: [libs/openscad-parser/bindings/c/tree_sitter/tree-sitter-openscad-parser.h].

    The header is embedded as the text it is, line by line.  What it means
    to a C translation unit is given by the part of the C preprocessor it
    uses (conditional inclusion on a macro being defined, object-like
    [#define] and [#undef]; no [/* */] comments, line splicing or [#if]
    expressions, none of which the file has) and by a reader for the two
    declarations it makes. *)

From Stdlib Require Import String Ascii List Bool.
Import ListNotations.
Local Open Scope string_scope.

(** ** Characters and words of a source line *)

Module Lexical.

Definition is_blank (c : ascii) : bool :=
  let n := nat_of_ascii c in Nat.eqb n 32 || Nat.eqb n 9.

Definition is_ident_char (c : ascii) : bool :=
  let n := nat_of_ascii c in
  (Nat.leb 48 n && Nat.leb n 57) || (Nat.leb 65 n && Nat.leb n 90)
  || (Nat.leb 97 n && Nat.leb n 122) || Nat.eqb n 95.

Definition is_slash (c : ascii) : bool := Nat.eqb (nat_of_ascii c) 47.
Definition is_hash (c : ascii) : bool := Nat.eqb (nat_of_ascii c) 35.
Definition is_quote (c : ascii) : bool := Nat.eqb (nat_of_ascii c) 34.
Definition is_lparen (c : ascii) : bool := Nat.eqb (nat_of_ascii c) 40.

Fixpoint skip_blanks (s : string) : string :=
  match s with
  | String c s' => if is_blank c then skip_blanks s' else s
  | EmptyString => s
  end.

(** The longest identifier-like prefix, and what follows it. *)
Fixpoint take_ident (s : string) : string * string :=
  match s with
  | String c s' =>
      if is_ident_char c
      then let (w, r) := take_ident s' in (String c w, r)
      else (EmptyString, s)
  | EmptyString => (EmptyString, EmptyString)
  end.

(** A [//] comment runs to the end of the line. *)
Fixpoint strip_line_comment (s : string) : string :=
  match s with
  | String c s' =>
      match s' with
      | String c' _ =>
          if is_slash c && is_slash c' then EmptyString
          else String c (strip_line_comment s')
      | EmptyString => s
      end
  | EmptyString => s
  end.

Definition starts_with_lparen (s : string) : bool :=
  match s with
  | String c _ => is_lparen c
  | EmptyString => false
  end.

Definition nonempty (s : string) : bool :=
  match s with
  | EmptyString => false
  | String _ _ => true
  end.

End Lexical.

(** ** The header, as it is in the repository *)

Module Header.

Definition dquote : string := String (ascii_of_nat 34) EmptyString.

(** The include guard's macro. *)
Definition TREE_SITTER_OPENSCAD_PARSER_H_ : string :=
  "TREE_SITTER_OPENSCAD_PARSER_H_".

(** The sixteen lines of the file. *)
Definition header_lines : list string :=
  [ "#ifndef TREE_SITTER_OPENSCAD_PARSER_H_";
    "#define TREE_SITTER_OPENSCAD_PARSER_H_";
    "";
    "typedef struct TSLanguage TSLanguage;";
    "";
    "#ifdef __cplusplus";
    "extern " ++ dquote ++ "C" ++ dquote ++ " {";
    "#endif";
    "";
    "const TSLanguage *tree_sitter_openscad_parser(void);";
    "";
    "#ifdef __cplusplus";
    "}";
    "#endif";
    "";
    "#endif // TREE_SITTER_OPENSCAD_PARSER_H_" ].

End Header.

(** ** Conditional inclusion *)

Module Preprocessor.
Import Lexical.

(** A source line as the preprocessor sees it: the four directives the
    header uses, [#undef], which is what can take a guard away again, and
    text.  Any other directive is [Unsupported]: a run that meets one is
    undefined rather than guessed at. *)
Inductive directive : Type :=
| Ifdef (name : string)
| Ifndef (name : string)
| Define (name body : string)
| Undef (name : string)
| Endif
| Text (line : string)
| Unsupported (line : string).

Definition classify (line : string) : directive :=
  match skip_blanks line with
  | String c rest =>
      if is_hash c then
        let (d, args) := take_ident (skip_blanks (strip_line_comment rest)) in
        let (name, tail) := take_ident (skip_blanks args) in
        if d =? "ifdef" then
          (if nonempty name then Ifdef name else Unsupported line)
        else if d =? "ifndef" then
          (if nonempty name then Ifndef name else Unsupported line)
        else if d =? "define" then
          (if nonempty name && negb (starts_with_lparen tail)
           then Define name (skip_blanks tail) else Unsupported line)
        else if d =? "undef" then
          (if nonempty name then Undef name else Unsupported line)
        else if d =? "endif" then Endif
        else Unsupported line
      else Text line
  | EmptyString => Text line
  end.

(** The macros defined so far (latest first) and the stack of open
    conditional groups: [true] for a group whose lines are kept. *)
Record pp_state : Type := mk_state {
  macros : list (string * string);
  conds : list bool
}.

Definition is_defined (x : string) (m : list (string * string)) : bool :=
  existsb (fun p => x =? fst p) m.

Definition remove_macro (x : string) (m : list (string * string))
  : list (string * string) :=
  filter (fun p => negb (x =? fst p)) m.

Definition active (st : pp_state) : bool :=
  forallb (fun b => b) (conds st).

Definition push (b : bool) (st : pp_state) : pp_state :=
  mk_state (macros st) (b :: conds st).

Section Run.

(** Macro replacement in a kept text line: the results below hold whatever
    it does. *)
Variable expand : list (string * string) -> string -> string.

(** One line: the state after it and the lines it contributes to the
    translation unit; [None] for a directive without its [#if] or outside
    the model. *)
Definition step (st : pp_state) (d : directive)
  : option (pp_state * list string) :=
  match d with
  | Ifdef x =>
      Some (push (active st && is_defined x (macros st)) st, [])
  | Ifndef x =>
      Some (push (active st && negb (is_defined x (macros st))) st, [])
  | Define x body =>
      Some (if active st then mk_state ((x, body) :: macros st) (conds st)
            else st, [])
  | Undef x =>
      Some (if active st then mk_state (remove_macro x (macros st)) (conds st)
            else st, [])
  | Endif =>
      match conds st with
      | [] => None
      | _ :: cs => Some (mk_state (macros st) cs, [])
      end
  | Text s =>
      Some (st, if active st then [expand (macros st) s] else [])
  | Unsupported _ => None
  end.

Fixpoint run_dirs (st : pp_state) (ds : list directive)
  : option (pp_state * list string) :=
  match ds with
  | [] => Some (st, [])
  | d :: ds' =>
      match step st d with
      | None => None
      | Some (st1, o1) =>
          match run_dirs st1 ds' with
          | None => None
          | Some (st2, o2) => Some (st2, (o1 ++ o2)%list)
          end
      end
  end.

Definition preprocess (st : pp_state) (file : list string)
  : option (pp_state * list string) :=
  run_dirs st (map classify file).

End Run.

(** Text lines taken as they are, for a translation unit none of whose
    macros rewrites the words of the header's declarations. *)
Definition verbatim (m : list (string * string)) (line : string) : string :=
  line.

(** [#include] is replaced by the lines of the file: [k] inclusions in
    a row are [k] copies of it. *)
Definition include_times (k : nat) (file : list string) : list string :=
  concat (repeat file k).

(** *** The shape of a file that is wholly inside an include guard *)

(** Nesting depth after a line inside the guard [g]; [None] where the line
    closes a group that is not open, undefines [g], or is outside the
    model. *)
Definition depth_after (g : string) (depth : nat) (d : directive)
  : option nat :=
  match d with
  | Ifdef _ | Ifndef _ => Some (S depth)
  | Endif => match depth with 0 => None | S k => Some k end
  | Undef x => if x =? g then None else Some depth
  | Define _ _ | Text _ => Some depth
  | Unsupported _ => None
  end.

(** The group opened [depth] levels above is closed by the last line and
    not before. *)
Fixpoint closes_at_end (g : string) (depth : nat) (ds : list directive)
  : bool :=
  match ds with
  | [] => false
  | d :: ds' =>
      match depth_after g depth d with
      | None => false
      | Some 0 => match ds' with [] => true | _ :: _ => false end
      | Some (S k) => closes_at_end g (S k) ds'
      end
  end.

Definition whole_file_guarded (g : string) (ds : list directive) : bool :=
  match ds with
  | Ifndef g1 :: Define g2 _ :: body =>
      (g =? g1) && (g =? g2) && closes_at_end g 1 body
  | _ => false
  end.

(** A later inclusion does nothing in a state where the guard macro is
    defined, or inside a skipped group. *)
Definition guarded (g : string) (st : pp_state) : bool :=
  is_defined g (macros st) || negb (active st).

(** *** A translation unit around the file *)

(** The lines of a translation unit after the first inclusion: its own
    source lines and further [#include]s of the same file. *)
Inductive tu_item : Type :=
| Include
| Source (line : string).

Definition tu_lines (file : list string) (tu : list tu_item) : list string :=
  flat_map (fun i => match i with Include => file | Source l => [l] end) tu.




End Preprocessor.

(** ** Reading the declarations of the header *)

Module Declarations.
Import Lexical.

Inductive token : Type :=
| Word (w : string)
| Punct (c : ascii)
| Literal (s : string).

Inductive lex_mode : Type :=
| Between
| InWord (w : string)
| InLiteral (s : string).

Definition flush (m : lex_mode) : list token :=
  match m with
  | Between => []
  | InWord w => [Word w]
  | InLiteral s => [Literal s]
  end.

Definition snoc (s : string) (c : ascii) : string :=
  s ++ String c EmptyString.

Fixpoint lex (m : lex_mode) (s : string) : list token :=
  match s with
  | EmptyString => flush m
  | String c r =>
      match m with
      | InLiteral l =>
          if is_quote c then Literal l :: lex Between r
          else lex (InLiteral (snoc l c)) r
      | _ =>
          if is_ident_char c then
            lex (InWord (snoc match m with
                              | InWord w => w
                              | _ => EmptyString
                              end c)) r
          else
            (flush m ++
             (if is_quote c then lex (InLiteral EmptyString) r
              else if is_blank c then lex Between r
              else Punct c :: lex Between r))%list
      end
  end.

Inductive ctype : Type :=
| Named (name : string)
| Struct (tag : string)
| Const (t : ctype)
| Pointer (t : ctype).

(** [()] in C declares a function without saying what it takes; [(void)]
    declares one that takes nothing: [Prototype []]. *)
Inductive parameters : Type :=
| Unspecified
| Prototype (ps : list ctype).

Inductive declaration : Type :=
| Typedef (t : ctype) (name : string)
| Function (ret : ctype) (name : string) (ps : parameters)
| LinkageOpen (lang : string)
| LinkageClose.

Definition is_word (w : string) (t : token) : bool :=
  match t with
  | Word s => s =? w
  | _ => false
  end.

Definition is_punct (n : nat) (t : token) : bool :=
  match t with
  | Punct c => Nat.eqb (nat_of_ascii c) n
  | _ => false
  end.

(** [T], [const T], [struct T] and [const struct T]. *)
Definition parse_base (ts : list token) : option (ctype * list token) :=
  match ts with
  | Word a :: r1 =>
      if a =? "const" then
        match r1 with
        | Word b :: r2 =>
            if b =? "struct" then
              match r2 with
              | Word tag :: r3 => Some (Const (Struct tag), r3)
              | _ => None
              end
            else Some (Const (Named b), r2)
        | _ => None
        end
      else if a =? "struct" then
        match r1 with
        | Word tag :: r2 => Some (Struct tag, r2)
        | _ => None
        end
      else Some (Named a, r1)
  | _ => None
  end.

(** Each [*] makes a pointer to what stands on its left; a [const] after
    it qualifies the pointer itself. *)
Fixpoint parse_stars (t : ctype) (ts : list token) : ctype * list token :=
  match ts with
  | tok :: r =>
      if is_punct 42 tok then
        match r with
        | tok2 :: r2 =>
            if is_word "const" tok2 then parse_stars (Const (Pointer t)) r2
            else parse_stars (Pointer t) r
        | [] => (Pointer t, [])
        end
      else (t, ts)
  | [] => (t, ts)
  end.

Fixpoint split_at_rparen (ts : list token)
  : option (list token * list token) :=
  match ts with
  | [] => None
  | tok :: r =>
      if is_punct 41 tok then Some ([], r)
      else if is_punct 40 tok then None
      else match split_at_rparen r with
           | Some (a, b) => Some (tok :: a, b)
           | None => None
           end
  end.

Fixpoint split_commas (cur : list token) (ts : list token)
  : list (list token) :=
  match ts with
  | [] => [rev cur]
  | tok :: r =>
      if is_punct 44 tok then rev cur :: split_commas [] r
      else split_commas (tok :: cur) r
  end.

Definition parse_param (ts : list token) : option ctype :=
  match parse_base ts with
  | Some (b, r) =>
      match parse_stars b r with
      | (t, []) => Some t
      | (t, [Word _]) => Some t
      | _ => None
      end
  | None => None
  end.

Fixpoint parse_params (ps : list (list token)) : option (list ctype) :=
  match ps with
  | [] => Some []
  | p :: ps' =>
      match parse_param p, parse_params ps' with
      | Some t, Some ts => Some (t :: ts)
      | _, _ => None
      end
  end.

Definition parse_parameters (inside : list token) : option parameters :=
  match inside with
  | [] => Some Unspecified
  | [tok] =>
      if is_word "void" tok then Some (Prototype [])
      else option_map Prototype (parse_params [inside])
  | _ => option_map Prototype (parse_params (split_commas [] inside))
  end.

Definition parse_declaration (ts : list token) : option declaration :=
  match ts with
  | [] => None
  | first :: r =>
      if is_word "typedef" first then
        match parse_base r with
        | Some (b, r1) =>
            match parse_stars b r1 with
            | (t, [Word name; semi]) =>
                if is_punct 59 semi then Some (Typedef t name) else None
            | _ => None
            end
        | None => None
        end
      else if is_word "extern" first then
        match r with
        | [Literal lang; brace] =>
            if is_punct 123 brace then Some (LinkageOpen lang) else None
        | _ => None
        end
      else if is_punct 125 first then
        match r with
        | [] => Some LinkageClose
        | _ :: _ => None
        end
      else
        match parse_base ts with
        | Some (b, r1) =>
            match parse_stars b r1 with
            | (t, Word name :: lp :: r2) =>
                if is_punct 40 lp then
                  match split_at_rparen r2 with
                  | Some (inside, [semi]) =>
                      if is_punct 59 semi
                      then option_map (Function t name)
                                      (parse_parameters inside)
                      else None
                  | _ => None
                  end
                else None
            | _ => None
            end
        | None => None
        end
  end.

Definition has_tokens (ts : list token) : bool :=
  match ts with
  | [] => false
  | _ :: _ => true
  end.

(** What the lines of a preprocessed header declare, blank lines apart;
    [None] marks a line the reader does not understand. *)
Definition declared (out : list string) : list (option declaration) :=
  map parse_declaration (filter has_tokens (map (lex Between) out)).

End Declarations.

(** ** What the header is written to declare *)

Module Interface.
Import Declarations.

(** [typedef struct TSLanguage TSLanguage;]: the structure is named and
    not laid out, so the type is opaque to whoever includes the header. *)
Definition TSLanguage : declaration :=
  Typedef (Struct "TSLanguage") "TSLanguage".

(** [const TSLanguage *tree_sitter_openscad_parser(void);] *)
Definition tree_sitter_openscad_parser : declaration :=
  Function (Pointer (Const (Named "TSLanguage")))
           "tree_sitter_openscad_parser" (Prototype []).

(** The text lines of the header once its two [#ifdef __cplusplus] groups
    are decided: with [cxx] they bracket the prototype in a C linkage
    block. *)
Definition header_text (cxx : bool) : list string :=
  ([ ""; "typedef struct TSLanguage TSLanguage;"; "" ]
   ++ (if cxx
       then [ ("extern " ++ Header.dquote ++ "C" ++ Header.dquote ++ " {")%string ]
       else [])
   ++ [ ""; "const TSLanguage *tree_sitter_openscad_parser(void);"; "" ]
   ++ (if cxx then [ "}" ] else [])
   ++ [ "" ])%list.

End Interface.

(** ** Why an include guard makes inclusion idempotent *)

Module GuardTheory.
Import Lexical Preprocessor.

Lemma is_defined_cons (x y body : string) (m : list (string * string)) :
  is_defined x m = true -> is_defined x ((y, body) :: m) = true.
Proof.
  unfold is_defined; simpl; intros ->; apply orb_true_r.
Qed.

Lemma is_defined_head (x body : string) (m : list (string * string)) :
  is_defined x ((x, body) :: m) = true.
Proof.
  unfold is_defined; simpl; now rewrite String.eqb_refl.
Qed.

Lemma is_defined_remove (g x : string) (m : list (string * string)) :
  (x =? g) = false -> is_defined g (remove_macro x m) = is_defined g m.
Proof.
  intros Hx; unfold is_defined, remove_macro.
  induction m as [|[y body] m IH]; simpl; [reflexivity|].
  destruct (x =? y) eqn:Exy; simpl.
  - apply String.eqb_eq in Exy; subst y.
    rewrite String.eqb_sym, Hx; exact IH.
  - now rewrite IH.
Qed.

Lemma skipped_below (fs c0 : list bool) :
  forallb (fun b => b) (fs ++ false :: c0)%list = false.
Proof.
  rewrite forallb_app; simpl; apply andb_false_r.
Qed.

Lemma map_classify_include (k : nat) (file : list string) :
  map classify (include_times k file) = concat (repeat (map classify file) k).
Proof.
  unfold include_times; induction k as [|k IH]; simpl; [reflexivity|].
  now rewrite map_app, IH.
Qed.

Section Guarded.

Variable expand : list (string * string) -> string -> string.

Lemma run_dirs_app (ds1 ds2 : list directive) : forall st,
  run_dirs expand st (ds1 ++ ds2)%list =
  match run_dirs expand st ds1 with
  | None => None
  | Some (st1, o1) =>
      match run_dirs expand st1 ds2 with
      | None => None
      | Some (st2, o2) => Some (st2, (o1 ++ o2)%list)
      end
  end.
Proof.
  induction ds1 as [|d ds1 IH]; intros st; simpl.
  - destruct (run_dirs expand st ds2) as [[st2 o2]|]; reflexivity.
  - destruct (step expand st d) as [[sa oa]|]; [|reflexivity].
    rewrite IH.
    destruct (run_dirs expand sa ds1) as [[sb ob]|]; [|reflexivity].
    destruct (run_dirs expand sb ds2) as [[sc oc]|]; [|reflexivity].
    now rewrite app_assoc.
Qed.

(** The lines between the guard's [#define] and its [#endif].  [fs] are
    the groups they have opened themselves, [b] is the guard's own group
    and [c0] what was open around the file.  They always run, leave [c0]
    as it was and keep the guard defined; when the guard's group is
    skipped they contribute nothing at all. *)
Lemma body_runs (g : string) (ds : list directive) :
  forall (fs : list bool) (b : bool) (c0 : list bool) (st : pp_state),
    closes_at_end g (S (length fs)) ds = true ->
    conds st = (fs ++ b :: c0)%list ->
    exists st' out,
      run_dirs expand st ds = Some (st', out) /\
      conds st' = c0 /\
      (is_defined g (macros st) = true -> is_defined g (macros st') = true) /\
      (b = false -> macros st' = macros st /\ out = []).
Proof.
  induction ds as [|d ds IH]; intros fs b c0 st Hc Hst; [discriminate|].
  assert (Hskip : b = false -> active st = false).
  { intros ->; unfold active; rewrite Hst; apply skipped_below. }
  destruct d as [x|x|x body|x| |line|line];
    cbn [closes_at_end depth_after] in Hc.
  - (* #ifdef *)
    destruct (IH (active st && is_defined x (macros st) :: fs) b c0
                 (push (active st && is_defined x (macros st)) st))
      as (st' & out & Hrun & Hc0 & Hmono & Hb);
      [exact Hc | simpl; now rewrite Hst |].
    exists st', out; cbn [run_dirs step]; rewrite Hrun; auto.
  - (* #ifndef *)
    destruct (IH (active st && negb (is_defined x (macros st)) :: fs) b c0
                 (push (active st && negb (is_defined x (macros st))) st))
      as (st' & out & Hrun & Hc0 & Hmono & Hb);
      [exact Hc | simpl; now rewrite Hst |].
    exists st', out; cbn [run_dirs step]; rewrite Hrun; auto.
  - (* #define *)
    destruct (IH fs b c0
                 (if active st then mk_state ((x, body) :: macros st) (conds st)
                  else st))
      as (st' & out & Hrun & Hc0 & Hmono & Hb);
      [exact Hc | destruct (active st); simpl; exact Hst |].
    exists st', out; cbn [run_dirs step]; rewrite Hrun.
    repeat split; auto.
    + intros Hy; apply Hmono.
      destruct (active st); cbn [macros]; [now apply is_defined_cons | exact Hy].
    + destruct (Hb H) as [Hm _]; rewrite Hm, (Hskip H); reflexivity.
    + now destruct (Hb H).
  - (* #undef of another macro *)
    destruct (x =? g) eqn:Exg; [discriminate|].
    destruct (IH fs b c0
                 (if active st
                  then mk_state (remove_macro x (macros st)) (conds st)
                  else st))
      as (st' & out & Hrun & Hc0 & Hmono & Hb);
      [exact Hc | destruct (active st); simpl; exact Hst |].
    exists st', out; cbn [run_dirs step]; rewrite Hrun.
    repeat split; auto.
    + intros Hy; apply Hmono.
      destruct (active st); cbn [macros];
        [now rewrite is_defined_remove | exact Hy].
    + destruct (Hb H) as [Hm _]; rewrite Hm, (Hskip H); reflexivity.
    + now destruct (Hb H).
  - (* #endif *)
    destruct fs as [|f fs]; simpl in Hc, Hst.
    + destruct ds; [|discriminate].
      exists (mk_state (macros st) c0), [].
      cbn [run_dirs step]; rewrite Hst; simpl; auto.
    + destruct (IH fs b c0 (mk_state (macros st) (fs ++ b :: c0)%list))
        as (st' & out & Hrun & Hc0 & Hmono & Hb); [exact Hc | reflexivity |].
      exists st', out; cbn [run_dirs step]; rewrite Hst, Hrun; auto.
  - (* a line of text *)
    destruct (IH fs b c0 st) as (st' & out & Hrun & Hc0 & Hmono & Hb);
      [exact Hc | exact Hst |].
    exists st', ((if active st then [expand (macros st) line] else []) ++ out)%list.
    cbn [run_dirs step]; rewrite Hrun.
    repeat split; auto.
    + now destruct (Hb H).
    + destruct (Hb H) as [_ ->]; rewrite (Hskip H); reflexivity.
  - discriminate.
Qed.

(** One inclusion of a guarded file, from any state: it runs, closes what
    it opened and leaves the guard in force; where the guard was in force
    already it changes nothing and contributes nothing. *)
Lemma guarded_file_runs (g : string) (ds : list directive) (st : pp_state) :
  whole_file_guarded g ds = true ->
  exists st' out,
    run_dirs expand st ds = Some (st', out) /\
    conds st' = conds st /\
    guarded g st' = true /\
    (guarded g st = true -> st' = st /\ out = []).
Proof.
  destruct ds as [|[ | g1 | | | | | ] [|[ | | g2 body0 | | | | ] body]];
    try discriminate.
  cbn [whole_file_guarded].
  intros H; apply andb_prop in H as [H Hbody]; apply andb_prop in H as [E1 E2].
  apply String.eqb_eq in E1, E2; subst g1 g2.
  set (b := active st && negb (is_defined g (macros st))).
  set (st1 := push b st).
  set (st2 := if active st1 then mk_state ((g, body0) :: macros st1) (conds st1)
              else st1).
  assert (Hact1 : active st1 = b).
  { unfold active, st1, b; simpl.
    fold (active st); destruct (active st); simpl;
      [apply andb_true_r | reflexivity]. }
  destruct (body_runs g body [] b (conds st) st2)
    as (st' & out & Hrun & Hc0 & Hmono & Hb); [exact Hbody | |].
  { unfold st2; destruct (active st1); reflexivity. }
  exists st', out.
  cbn [run_dirs step]; fold b; fold st1; fold st2; rewrite Hrun; simpl.
  split; [reflexivity|]; split; [exact Hc0|].
  assert (Hkeep : guarded g st = true -> b = false).
  { unfold guarded, b; intros Hg; apply orb_prop in Hg as [-> | Hn].
    - simpl; apply andb_false_r.
    - apply negb_true_iff in Hn; now rewrite Hn. }
  assert (Hsame : b = false -> macros st' = macros st /\ out = []).
  { intros Hf; destruct (Hb Hf) as [Hm ->]; split; [|reflexivity].
    rewrite Hm; unfold st2; rewrite Hact1, Hf; reflexivity. }
  split.
  - unfold guarded; destruct b eqn:Eb.
    + rewrite Hmono; [reflexivity|].
      unfold st2; rewrite Hact1; cbn [macros]; apply is_defined_head.
    + destruct (Hsame eq_refl) as [Hm _].
      unfold active; rewrite Hm, Hc0; fold (active st).
      unfold b in Eb; apply andb_false_iff in Eb as [-> | Hn];
        [apply orb_true_r|].
      apply negb_false_iff in Hn; now rewrite Hn.
  - intros Hg; destruct (Hsame (Hkeep Hg)) as [Hm Ho]; split; [|exact Ho].
    destruct st' as [m' c'], st as [m c]; simpl in *; now subst.
Qed.

Lemma guarded_file_again (g : string) (ds : list directive) (st : pp_state) :
  whole_file_guarded g ds = true ->
  guarded g st = true ->
  run_dirs expand st ds = Some (st, []).
Proof.
  intros Hw Hg.
  destruct (guarded_file_runs g ds st Hw) as (st' & out & Hrun & _ & _ & Hs).
  destruct (Hs Hg) as [-> ->]; exact Hrun.
Qed.

Lemma guarded_file_repeat (g : string) (ds : list directive) (k : nat)
      (st : pp_state) :
  whole_file_guarded g ds = true ->
  guarded g st = true ->
  run_dirs expand st (concat (repeat ds k)) = Some (st, []).
Proof.
  intros Hw Hg; induction k as [|k IH]; simpl; [reflexivity|].
  now rewrite run_dirs_app, (guarded_file_again g ds st Hw Hg), IH.
Qed.

(** Any number of inclusions in a row amount to the first. *)
Lemma guarded_file_idempotent (g : string) (file : list string) :
  whole_file_guarded g (map classify file) = true ->
  forall (st : pp_state) (n : nat),
  exists st' out,
    preprocess expand st file = Some (st', out) /\
    preprocess expand st (include_times (S n) file) = Some (st', out).
Proof.
  intros Hw st n; unfold preprocess.
  destruct (guarded_file_runs g (map classify file) st Hw)
    as (st' & out & Hrun & _ & Hg & _).
  exists st', out; split; [exact Hrun|].
  rewrite map_classify_include; simpl.
  rewrite run_dirs_app, Hrun, (guarded_file_repeat g _ n st' Hw Hg).
  now rewrite app_nil_r.
Qed.

(** *** Further inclusions anywhere later in the translation unit *)




End Guarded.

End GuardTheory.

(** ** The header itself *)

Module HeaderFacts.
Import Lexical Header Preprocessor Declarations Interface GuardTheory.

Lemma header_directives :
  map classify header_lines =
  [ Ifndef TREE_SITTER_OPENSCAD_PARSER_H_;
    Define TREE_SITTER_OPENSCAD_PARSER_H_ "";
    Text ""; Text "typedef struct TSLanguage TSLanguage;"; Text "";
    Ifdef "__cplusplus"; Text ("extern " ++ dquote ++ "C" ++ dquote ++ " {");
    Endif;
    Text ""; Text "const TSLanguage *tree_sitter_openscad_parser(void);";
    Text "";
    Ifdef "__cplusplus"; Text "}"; Endif;
    Text ""; Endif ].
Proof. vm_compute; reflexivity. Qed.

Lemma header_is_guarded :
  whole_file_guarded TREE_SITTER_OPENSCAD_PARSER_H_
                     (map classify header_lines) = true.
Proof. vm_compute; reflexivity. Qed.

(** A C translation unit gets the typedef and the prototype. *)
Example header_in_c :
  preprocess verbatim (mk_state [] []) header_lines =
  Some (mk_state [(TREE_SITTER_OPENSCAD_PARSER_H_, "")] [],
        [ ""; "typedef struct TSLanguage TSLanguage;"; ""; "";
          "const TSLanguage *tree_sitter_openscad_parser(void);"; ""; "" ]).
Proof. vm_compute; reflexivity. Qed.

(** A C++ one gets them inside a C linkage block. *)
Example header_in_cxx :
  option_map (fun r => declared (snd r))
    (preprocess verbatim (mk_state [("__cplusplus", "201703L")] [])
                header_lines) =
  Some [ Some TSLanguage; Some (LinkageOpen "C");
         Some tree_sitter_openscad_parser; Some LinkageClose ].
Proof. vm_compute; reflexivity. Qed.

(** Included three times, it gives what it gives once. *)
Example header_three_times :
  preprocess verbatim (mk_state [] []) (include_times 3 header_lines) =
  preprocess verbatim (mk_state [] []) header_lines.
Proof. vm_compute; reflexivity. Qed.

(** Included again between other lines and inside a conditional group of
    the translation unit, it adds nothing either. *)
Example header_between_lines :
  preprocess verbatim (mk_state [] [])
    (header_lines ++
     tu_lines header_lines
       [Source "int x;"; Include; Source "#ifndef FOO"; Include;
        Source "#endif"; Source "int y;"]) =
  Some (mk_state [(TREE_SITTER_OPENSCAD_PARSER_H_, "")] [],
        [ ""; "typedef struct TSLanguage TSLanguage;"; ""; "";
          "const TSLanguage *tree_sitter_openscad_parser(void);"; ""; "";
          "int x;"; "int y;" ]).
Proof. vm_compute; reflexivity. Qed.

(** The macro is all that stops the lines: a translation unit that
    undefines it between two inclusions gets them again. *)
Example header_after_undef :
  preprocess verbatim (mk_state [] [])
    (header_lines ++ ["#undef TREE_SITTER_OPENSCAD_PARSER_H_"] ++ header_lines)
  <> preprocess verbatim (mk_state [] []) header_lines.
Proof. vm_compute; discriminate. Qed.

(** Whatever macros the translation unit has defined before its first
    inclusion of the header, the header declares the opaque type
    [TSLanguage] and one function, [tree_sitter_openscad_parser], which
    takes no parameters and returns a pointer to a [const TSLanguage];
    with [__cplusplus] defined the two stand in a C linkage block.  It
    declares nothing else: no second accessor and no function to release
    what the first returns. *)
Lemma header_declares (m : list (string * string)) :
  is_defined TREE_SITTER_OPENSCAD_PARSER_H_ m = false ->
  exists st out,
    preprocess verbatim (mk_state m []) header_lines = Some (st, out) /\
    declared out =
    if is_defined "__cplusplus" m
    then [ Some TSLanguage; Some (LinkageOpen "C");
           Some tree_sitter_openscad_parser; Some LinkageClose ]
    else [ Some TSLanguage; Some tree_sitter_openscad_parser ].
Proof.
  intros Hg; unfold preprocess; rewrite header_directives.
  cbn [run_dirs step active conds macros push forallb andb].
  rewrite Hg; cbn [negb forallb andb conds macros].
  replace (is_defined "__cplusplus"
             ((TREE_SITTER_OPENSCAD_PARSER_H_, "") :: m))
    with (is_defined "__cplusplus" m) by reflexivity.
  destruct (is_defined "__cplusplus" m);
    cbn [forallb andb conds macros app]; eexists; eexists;
    (split; [reflexivity | vm_compute; reflexivity]).
Qed.

(** Every function the header declares is the entry point: it takes no
    parameters and hands out the language only as a pointer to [const]. *)
Lemma header_functions (m : list (string * string)) (st : pp_state)
      (out : list string) (ret : ctype) (name : string) (ps : parameters) :
  is_defined TREE_SITTER_OPENSCAD_PARSER_H_ m = false ->
  preprocess verbatim (mk_state m []) header_lines = Some (st, out) ->
  In (Some (Function ret name ps)) (declared out) ->
  name = "tree_sitter_openscad_parser" /\
  ps = Prototype [] /\
  ret = Pointer (Const (Named "TSLanguage")).
Proof.
  intros Hg Hrun Hin.
  destruct (header_declares m Hg) as (st' & out' & Hrun' & Hd).
  rewrite Hrun in Hrun'; injection Hrun' as _ <-.
  rewrite Hd in Hin; unfold TSLanguage, tree_sitter_openscad_parser in Hin.
  destruct (is_defined "__cplusplus" m); simpl in Hin;
    repeat (destruct Hin as [Hin|Hin]; [try discriminate|]);
    try contradiction;
    injection Hin as <- <- <-; auto.
Qed.

(** In a state where the guard is in force the header contributes nothing
    and changes nothing. *)
Lemma header_included_again
      (expand : list (string * string) -> string -> string) (st : pp_state) :
  guarded TREE_SITTER_OPENSCAD_PARSER_H_ st = true ->
  preprocess expand st header_lines = Some (st, []).
Proof.
  intros Hg; unfold preprocess.
  exact (guarded_file_again expand _ _ st header_is_guarded Hg).
Qed.


(** C10.  Inclusion of the header is idempotent.  The whole file stands
    inside its include guard: the first line tests the macro
    [TREE_SITTER_OPENSCAD_PARSER_H_], the second defines it, and the group
    the first line opens is closed by the last line and not before.  So
    wherever a translation unit includes the header (whatever macros are
    defined, whatever conditional groups are open, whatever macro
    replacement does to text), including it [n + 1] times runs, leaves
    the same preprocessor state and contributes exactly the same lines,
    hence the same declarations, as including it once. *)
Theorem header_inclusion_idempotent :
  forall (expand : list (string * string) -> string -> string)
         (st : pp_state) (n : nat),
    whole_file_guarded TREE_SITTER_OPENSCAD_PARSER_H_
                       (map classify header_lines) = true /\
    exists st' out,
      preprocess expand st header_lines = Some (st', out) /\
      preprocess expand st (include_times (S n) header_lines)
      = Some (st', out).
Proof.
  intros expand st n; split; [exact header_is_guarded|].
  exact (guarded_file_idempotent expand _ header_lines
           header_is_guarded st n).
Qed.

End HeaderFacts.

(** ** How the header behaves in a translation unit *)

Module HeaderBehaviour.
Import Lexical Header Preprocessor Declarations Interface GuardTheory.
Import HeaderFacts.

Section Behaviour.

Variable expand : list (string * string) -> string -> string.

(** Kept groups that are open around a run do not change it: it goes on
    as at the top level and leaves them open. *)
Lemma run_dirs_lift (ds : list directive) :
  forall (m : list (string * string)) (fs c : list bool)
         (st' : pp_state) (out : list string),
    forallb (fun b => b) c = true ->
    run_dirs expand (mk_state m fs) ds = Some (st', out) ->
    run_dirs expand (mk_state m (fs ++ c)) ds
    = Some (mk_state (macros st') (conds st' ++ c), out).
Proof.
  induction ds as [|d ds IH]; intros m fs c st' out Hc Hrun.
  - simpl in Hrun; injection Hrun as <- <-; reflexivity.
  - assert (Hact : active (mk_state m (fs ++ c)) = active (mk_state m fs)).
    { unfold active; cbn [conds]; rewrite forallb_app, Hc.
      apply andb_true_r. }
    cbn [run_dirs] in *.
    destruct d as [x|x|x body|x| |line|line]; cbn [step] in *;
      rewrite ?Hact; unfold push in *; cbn [macros conds] in *;
      try discriminate;
      try (destruct fs as [|f fs]; [discriminate|]; cbn [app]);
      try (destruct (active (mk_state m fs)); cbn [macros conds] in * );
      match type of Hrun with
      | match run_dirs expand ?s ds with _ => _ end = _ =>
          destruct (run_dirs expand s ds) as [[s2 o2]|] eqn:E;
            [|discriminate]
      end;
      injection Hrun as <- <-;
      try change (?b :: fs ++ c)%list with ((b :: fs) ++ c)%list;
      now rewrite (IH _ _ c _ _ Hc E).
Qed.

Lemma cxx_after_guard (m : list (string * string)) (body : string) :
  is_defined "__cplusplus" ((TREE_SITTER_OPENSCAD_PARSER_H_, body) :: m)
  = is_defined "__cplusplus" m.
Proof. reflexivity. Qed.

(** The first inclusion at the top level of a translation unit. *)
Lemma first_inclusion_top (m : list (string * string)) :
  is_defined TREE_SITTER_OPENSCAD_PARSER_H_ m = false ->
  run_dirs expand (mk_state m []) (map classify header_lines) =
  Some (mk_state ((TREE_SITTER_OPENSCAD_PARSER_H_, "") :: m) [],
        map (expand ((TREE_SITTER_OPENSCAD_PARSER_H_, "") :: m))
            (header_text (is_defined "__cplusplus" m))).
Proof.
  intros Hg; rewrite header_directives.
  cbn [run_dirs step active conds macros push forallb andb].
  rewrite Hg; cbn [negb forallb andb conds macros].
  rewrite cxx_after_guard.
  destruct (is_defined "__cplusplus" m);
    cbn [forallb andb conds macros app]; reflexivity.
Qed.

(** The first inclusion, in a region that is kept and with the guard's
    macro not yet defined: the header runs, defines the macro with an
    empty body and nothing else, leaves the open groups as they were, and
    contributes its text lines in order, the two linkage lines among them
    exactly when [__cplusplus] is defined. *)
Theorem header_first_inclusion (st : pp_state) :
  active st = true ->
  is_defined TREE_SITTER_OPENSCAD_PARSER_H_ (macros st) = false ->
  preprocess expand st header_lines =
  Some (mk_state ((TREE_SITTER_OPENSCAD_PARSER_H_, "") :: macros st)
                 (conds st),
        map (expand ((TREE_SITTER_OPENSCAD_PARSER_H_, "") :: macros st))
            (header_text (is_defined "__cplusplus" (macros st)))).
Proof.
  intros Ha Hg; destruct st as [m c]; cbn [macros conds] in *.
  unfold preprocess.
  exact (run_dirs_lift _ m [] c _ _ Ha (first_inclusion_top m Hg)).
Qed.

(** Wherever it is included, the header never fails, closes every group
    it opens, undefines nothing, and defines at most one macro, its
    guard. *)
Theorem header_frame (st : pp_state) :
  exists st' out,
    preprocess expand st header_lines = Some (st', out) /\
    conds st' = conds st /\
    (macros st' = macros st \/
     macros st' = (TREE_SITTER_OPENSCAD_PARSER_H_, "") :: macros st).
Proof.
  destruct (guarded TREE_SITTER_OPENSCAD_PARSER_H_ st) eqn:Hg.
  - exists st, []; unfold preprocess.
    rewrite (guarded_file_again expand _ _ st header_is_guarded Hg); auto.
  - unfold guarded in Hg; apply orb_false_iff in Hg as [Hd Ha].
    apply negb_false_iff in Ha.
    destruct st as [m c]; cbn [macros conds] in *.
    eexists; eexists; split;
      [exact (run_dirs_lift _ m [] c _ _ Ha (first_inclusion_top m Hd))|].
    cbn [macros conds app]; auto.
Qed.

Lemma undefined_after_remove (x : string) (m : list (string * string)) :
  is_defined x (remove_macro x m) = false.
Proof.
  unfold is_defined, remove_macro.
  induction m as [|[y body] m IH]; simpl; [reflexivity|].
  destruct (x =? y) eqn:E; simpl; [exact IH | now rewrite E].
Qed.

(** The guard is a macro and nothing more: a translation unit that
    undefines it in a kept region gets the whole of the header from the
    next inclusion, whether or not it had included it before. *)
Theorem header_after_undefining (st : pp_state) :
  active st = true ->
  preprocess expand st
    ("#undef TREE_SITTER_OPENSCAD_PARSER_H_" :: header_lines) =
  let m := remove_macro TREE_SITTER_OPENSCAD_PARSER_H_ (macros st) in
  Some (mk_state ((TREE_SITTER_OPENSCAD_PARSER_H_, "") :: m) (conds st),
        map (expand ((TREE_SITTER_OPENSCAD_PARSER_H_, "") :: m))
            (header_text (is_defined "__cplusplus" (macros st)))).
Proof.
  intros Ha; destruct st as [m c]; cbn [macros conds] in *.
  unfold preprocess.
  change (map classify
            ("#undef TREE_SITTER_OPENSCAD_PARSER_H_" :: header_lines))
    with (Undef TREE_SITTER_OPENSCAD_PARSER_H_ :: map classify header_lines).
  cbn [run_dirs step]; rewrite Ha; cbn [macros conds].
  pose proof (run_dirs_lift _ _ [] c _ _ Ha
                (first_inclusion_top _ (undefined_after_remove _ m))) as Hrun.
  cbn [macros conds app] in Hrun; rewrite Hrun; cbn [app].
  now rewrite (is_defined_remove "__cplusplus"
                 TREE_SITTER_OPENSCAD_PARSER_H_ m eq_refl).
Qed.

End Behaviour.


(** *** The hypotheses above can be met *)

Lemma header_first_inclusion_witness :
  active (mk_state [("__cplusplus", "201703L")] [true]) = true /\
  is_defined TREE_SITTER_OPENSCAD_PARSER_H_
             (macros (mk_state [("__cplusplus", "201703L")] [true])) = false /\
  preprocess verbatim (mk_state [("__cplusplus", "201703L")] [true])
             header_lines =
  Some (mk_state [(TREE_SITTER_OPENSCAD_PARSER_H_, "");
                  ("__cplusplus", "201703L")] [true],
        header_text true).
Proof.
  split; [reflexivity|]; split; [reflexivity|].
  apply (header_first_inclusion verbatim
           (mk_state [("__cplusplus", "201703L")] [true])); reflexivity.
Defined.


Lemma header_after_undefining_witness :
  active (mk_state [(TREE_SITTER_OPENSCAD_PARSER_H_, "")] []) = true /\
  preprocess verbatim (mk_state [(TREE_SITTER_OPENSCAD_PARSER_H_, "")] [])
    ("#undef TREE_SITTER_OPENSCAD_PARSER_H_" :: header_lines) =
  Some (mk_state [(TREE_SITTER_OPENSCAD_PARSER_H_, "")] [],
        header_text false).
Proof.
  split; [reflexivity|].
  apply (header_after_undefining verbatim
           (mk_state [(TREE_SITTER_OPENSCAD_PARSER_H_, "")] [])); reflexivity.
Defined.

Lemma header_included_again_witness :
  guarded TREE_SITTER_OPENSCAD_PARSER_H_
          (mk_state [(TREE_SITTER_OPENSCAD_PARSER_H_, "")] []) = true /\
  preprocess verbatim (mk_state [(TREE_SITTER_OPENSCAD_PARSER_H_, "")] [])
             header_lines =
  Some (mk_state [(TREE_SITTER_OPENSCAD_PARSER_H_, "")] [], []).
Proof.
  split; [reflexivity|].
  apply (header_included_again verbatim
           (mk_state [(TREE_SITTER_OPENSCAD_PARSER_H_, "")] [])); reflexivity.
Defined.


End HeaderBehaviour.
